(** * Policy-sandbox: the policy-to-outcome calculation of [app.py]

    Shallow embedding of the computational part of [app.py] (the population
    table, the tax columns, the UBI allocation, disposable income and the
    inequality proxy).  The Streamlit widgets only supply the five policy
    levers; they are modelled as the record [params].

    Modelling choices:
    - Python/NumPy floats are modelled as exact rationals [Q]; Python ints
      (the population counts, the UBI amount coming from an integer slider,
      the UBI cost) as [Z].
    - A pandas DataFrame is a list of rows; a column assignment is a [map]
      over the rows, [cumsum] a prefix scan, [sum] a fold.
    - Python exceptions are the constructors of [py_error]; a computation
      that may raise returns [res A]. *)

From Stdlib Require Import String QArith Qround List Sorted Permutation Lia Lqa ZArith.
Import ListNotations.
Open Scope Q_scope.

(** ** Exceptions and the result type *)

Inductive py_error : Type :=
| KeyError (key : string)
| IndexError.

Inductive res (A : Type) : Type :=
| Ok (a : A)
| Err (e : py_error).
Arguments Ok {A} a.
Arguments Err {A} e.

Definition bind {A B} (m : res A) (k : A -> res B) : res B :=
  match m with Ok a => k a | Err e => Err e end.

Notation "x <- m ;; k" := (bind m (fun x => k))
  (at level 61, m at next level, right associativity).

(** ** The toy economy (lines 16-23) *)

Record income_group : Type := mk_group {
  name : string;
  pop_share : Q;
  g_avg_income : Q;
  g_mpc : Q
}.

Definition INCOME_GROUPS : list income_group := [
  mk_group "Low"          (30 # 100) 20000  (95 # 100);
  mk_group "Lower-Middle" (40 # 100) 40000  (85 # 100);
  mk_group "Upper-Middle" (20 # 100) 80000  (75 # 100);
  mk_group "High"         (10 # 100) 200000 (60 # 100)
].

Definition TOTAL_POP : Z := 100000.

(** ** The policy levers (lines 30-39), already divided by 100 *)

Record params : Type := mk_params {
  vat_rate : Q;
  luxury_tax_rate : Q;
  income_tax_rate : Q;
  ubi_monthly : Z;
  ubi_target : string
}.

(** ** The population table (lines 48-84) *)

(** Python's [int] on a float truncates toward zero. *)
Definition py_int (x : Q) : Z := Z.quot (Qnum x) (Zpos (Qden x)).

Record base_row : Type := mk_base {
  group : string;
  group_pop : Z;
  avg_income : Q;
  mpc : Q;
  basic_cons : Q;
  luxury_cons : Q
}.

(** The consumption split of lines 63-70. *)
Definition consumption_split (nm : string) : Q * Q :=
  if String.eqb nm "Low" then (98 # 100, 2 # 100)
  else if String.eqb nm "Lower-Middle" then (95 # 100, 5 # 100)
  else if String.eqb nm "Upper-Middle" then (90 # 100, 10 # 100)
  else (80 # 100, 20 # 100).

Definition build_row (g : income_group) : base_row :=
  let group_pop := py_int (inject_Z TOTAL_POP * pop_share g) in
  let income := g_avg_income g in
  let consumption := income * g_mpc g in
  let '(basic_share, luxury_share) := consumption_split (name g) in
  mk_base (name g) group_pop income (g_mpc g)
          (consumption * basic_share) (consumption * luxury_share).

(** ** Tax columns (lines 89-102) *)

Record tax_cols : Type := mk_tax {
  vat_tax_per_person : Q;
  lux_tax_per_person : Q;
  income_tax_per_person : Q;
  total_tax_per_person : Q;
  total_tax_group : Q
}.

Definition tax_columns (p : params) (b : base_row) : tax_cols :=
  let vat := vat_rate p * (basic_cons b + luxury_cons b) in
  let lux := luxury_tax_rate p * luxury_cons b in
  let inc := income_tax_rate p * avg_income b in
  let tot := vat + lux + inc in
  mk_tax vat lux inc tot (tot * inject_Z (group_pop b)).

Definition sumQ (l : list Q) : Q := fold_left Qplus l 0.
Definition sumZ (l : list Z) : Z := fold_left Z.add l 0%Z.

(** ** Sorting by [avg_income] (line 108)

    [sort_values] is modelled as a stable insertion sort on the key; the
    reference data has pairwise distinct incomes, so every sorting
    algorithm yields the same order on it. *)

Section Sort.
Context {A : Type} (key : A -> Q).

Fixpoint insert_by (x : A) (l : list A) : list A :=
  match l with
  | [] => [x]
  | y :: t => if Qle_bool (key x) (key y) then x :: y :: t
              else y :: insert_by x t
  end.

Fixpoint sort_by (l : list A) : list A :=
  match l with
  | [] => []
  | x :: t => insert_by x (sort_by t)
  end.
End Sort.

Definition df_key (r : base_row * tax_cols) : Q := avg_income (fst r).

(** ** Cumulative population (lines 109-110) *)

Fixpoint cumsum_from (acc : Z) (l : list Z) : list Z :=
  match l with
  | [] => []
  | x :: t => (acc + x)%Z :: cumsum_from (acc + x) t
  end.

Definition cumsum (l : list Z) : list Z := cumsum_from 0 l.

(** ** UBI eligibility (lines 112-117)

    The [if/elif] chain has no [else]: for any other target the column
    [ubi_eligible] is never assigned ([None]). *)
Definition eligibility_rule (target : string) : option (Q -> bool) :=
  if String.eqb target "Everyone" then Some (fun _ => true)
  else if String.eqb target "Bottom 50% income" then Some (fun s => Qle_bool s 0.50)
  else if String.eqb target "Bottom 20% income" then Some (fun s => Qle_bool s 0.20)
  else None.

(** Reading the column [df["ubi_eligible"]] (line 119). *)
Definition read_eligible_column (c : option (Q -> bool)) : res (Q -> bool) :=
  match c with
  | Some rule => Ok rule
  | None => Err (KeyError "ubi_eligible")
  end.

Record ubi_cols : Type := mk_ubi {
  cum_pop : Z;
  cum_pop_share : Q;
  ubi_eligible : bool;
  ubi_per_person : Q;
  disposable_income_per_person : Q
}.

Record row : Type := mk_row {
  base : base_row;
  taxes : tax_cols;
  ubi : ubi_cols
}.

Definition cum_pop_share_of (c : Z) : Q := inject_Z c / inject_Z TOTAL_POP.

(** Columns of lines 109-110, 112-117, 129 and 131-137 for one row. *)
Definition ubi_columns (rule : Q -> bool) (annual : Z)
    (r : base_row * tax_cols) (c : Z) : row :=
  let '(b, t) := r in
  let share := cum_pop_share_of c in
  let elig := rule share in
  let upp := if elig then inject_Z annual else 0 in
  let disp := avg_income b - income_tax_per_person t - vat_tax_per_person t
              - lux_tax_per_person t + upp in
  mk_row b t (mk_ubi c share elig upp disp).

Definition eligible_pop (r : row) : Z :=
  if ubi_eligible (ubi r) then group_pop (base r) else 0%Z.

(** [df.iloc[0]] and [df.iloc[-1]]. *)
Definition iloc_first (l : list row) : res row :=
  match l with [] => Err IndexError | x :: _ => Ok x end.
Definition iloc_last (l : list row) : res row :=
  match rev l with [] => Err IndexError | x :: _ => Ok x end.

Record result : Type := mk_result {
  rows : list row;
  total_tax_revenue : Q;
  ubi_recipients : Z;
  ubi_annual_per_person : Z;
  total_ubi_cost : Z;
  budget_surplus : Q;
  inequality_ratio : option Q   (** [None] is [np.nan] *)
}.

(** The whole computation, lines 48-142. *)
Definition simulate (groups : list income_group) (p : params) : res result :=
  let df0 := map build_row groups in
  let df1 := map (fun b => (b, tax_columns p b)) df0 in
  let total_tax_revenue := sumQ (map (fun r => total_tax_group (snd r)) df1) in
  let df2 := sort_by df_key df1 in
  let cums := cumsum (map (fun r => group_pop (fst r)) df2) in
  rule <- read_eligible_column (eligibility_rule (ubi_target p)) ;;
  let ubi_annual_per_person := (ubi_monthly p * 12)%Z in
  let df3 := map (fun rc => ubi_columns rule ubi_annual_per_person (fst rc) (snd rc))
                 (combine df2 cums) in
  let ubi_recipients := sumZ (map eligible_pop df3) in
  let total_ubi_cost := (ubi_recipients * ubi_annual_per_person)%Z in
  let budget_surplus := total_tax_revenue - inject_Z total_ubi_cost in
  low <- iloc_first df3 ;;
  high <- iloc_last df3 ;;
  let low_disp := disposable_income_per_person (ubi low) in
  let high_disp := disposable_income_per_person (ubi high) in
  let inequality_ratio :=
    if Qle_bool low_disp 0 then None else Some (high_disp / low_disp) in
  Ok (mk_result df3 total_tax_revenue ubi_recipients ubi_annual_per_person
                total_ubi_cost budget_surplus inequality_ratio).

(** ** The widgets (lines 30-39) and the metrics row (lines 148-153)

    The three rate sliders return a percentage in [0, 30] or [0, 40], divided
    by 100; the UBI slider an integer in [0, 2000]; the selectbox one of its
    three options.  [ui_input] keeps the ranges and drops the step grid (0.5
    and 50), so it describes a superset of what the widgets can return. *)
Definition ubi_target_options : list string :=
  ["Everyone"; "Bottom 50% income"; "Bottom 20% income"]%string.

Definition ui_input (p : params) : Prop :=
  (0 <= vat_rate p <= (30 # 100)) /\
  (0 <= luxury_tax_rate p <= (40 # 100)) /\
  (0 <= income_tax_rate p <= (40 # 100)) /\
  (0 <= ubi_monthly p <= 2000)%Z /\
  In (ubi_target p) ubi_target_options.

(** The [delta] of the budget metric (line 152): a percentage of the
    revenue when the revenue is positive, [None] otherwise. *)
Definition budget_delta (r : result) : option Q :=
  if Qle_bool (total_tax_revenue r) 0 then None
  else Some (budget_surplus r / total_tax_revenue r * 100).

Definition default_params : params :=
  mk_params (10 # 100) (10 # 100) (15 # 100) 800 "Everyone".

(** * Properties *)

(** ** Insertion sort: sortedness, permutation, and independence from the
    columns that are not the key *)

Section SortFacts.
Context {A : Type} (key : A -> Q).

Let R (x y : A) : Prop := key x <= key y.

Lemma Qle_bool_false_le (x y : Q) : Qle_bool x y = false -> y <= x.
Proof.
  intro H. apply Qlt_le_weak, Qnot_le_lt. intro Hle.
  apply Qle_bool_iff in Hle. congruence.
Qed.

Lemma insert_by_hdrel (y x : A) (l : list A) :
  R y x -> HdRel R y l -> HdRel R y (insert_by key x l).
Proof.
  intros Hyx Hl. destruct l as [|z t]; simpl.
  - constructor. exact Hyx.
  - destruct (Qle_bool (key x) (key z)); constructor; [exact Hyx|].
    inversion Hl; assumption.
Qed.

Lemma insert_by_sorted (x : A) (l : list A) :
  Sorted R l -> Sorted R (insert_by key x l).
Proof.
  induction l as [|y t IH]; intros Hs; simpl.
  - repeat constructor.
  - destruct (Qle_bool (key x) (key y)) eqn:E.
    + constructor; [exact Hs|]. constructor. apply Qle_bool_iff. exact E.
    + inversion Hs as [|? ? Ht Hhd]; subst. constructor.
      * apply IH, Ht.
      * apply insert_by_hdrel; [apply Qle_bool_false_le; exact E | exact Hhd].
Qed.

Lemma sort_by_sorted (l : list A) : Sorted R (sort_by key l).
Proof.
  induction l as [|x t IH]; simpl; [constructor|].
  apply insert_by_sorted, IH.
Qed.

Lemma insert_by_perm (x : A) (l : list A) :
  Permutation (insert_by key x l) (x :: l).
Proof.
  induction l as [|y t IH]; simpl; [reflexivity|].
  destruct (Qle_bool (key x) (key y)); [reflexivity|].
  rewrite IH. apply perm_swap.
Qed.

Lemma sort_by_perm (l : list A) : Permutation (sort_by key l) l.
Proof.
  induction l as [|x t IH]; simpl; [reflexivity|].
  rewrite insert_by_perm. constructor. exact IH.
Qed.
End SortFacts.

(** Sorting the DataFrame after the tax columns were added moves whole rows:
    the base columns come out in the order of sorting the base rows alone. *)
Lemma insert_by_pair (f : base_row -> tax_cols) (b : base_row) (l : list base_row) :
  insert_by df_key (b, f b) (map (fun b => (b, f b)) l)
  = map (fun b => (b, f b)) (insert_by avg_income b l).
Proof.
  induction l as [|y t IH]; simpl; [reflexivity|].
  unfold df_key at 1 2; simpl.
  destruct (Qle_bool (avg_income b) (avg_income y)); simpl; [reflexivity|].
  rewrite IH. reflexivity.
Qed.

Lemma sort_by_pair (f : base_row -> tax_cols) (l : list base_row) :
  sort_by df_key (map (fun b => (b, f b)) l)
  = map (fun b => (b, f b)) (sort_by avg_income l).
Proof.
  induction l as [|x t IH]; simpl; [reflexivity|].
  rewrite IH. apply insert_by_pair.
Qed.

(** ** Sums and prefix sums *)

Lemma fold_left_Zadd_acc (l : list Z) (acc : Z) :
  fold_left Z.add l acc = (acc + fold_left Z.add l 0)%Z.
Proof.
  revert acc. induction l as [|x t IH]; intro acc; simpl; [lia|].
  rewrite (IH (acc + x)%Z), (IH x). lia.
Qed.

Lemma sumZ_cons (x : Z) (l : list Z) : sumZ (x :: l) = (x + sumZ l)%Z.
Proof. unfold sumZ. simpl. apply fold_left_Zadd_acc. Qed.

Lemma cumsum_from_length (acc : Z) (l : list Z) : length (cumsum_from acc l) = length l.
Proof.
  revert acc. induction l as [|x t IH]; intro acc; simpl; [reflexivity|].
  rewrite IH. reflexivity.
Qed.

Lemma nth_error_cumsum_from (acc : Z) (l : list Z) (i : nat) (c : Z) :
  nth_error (cumsum_from acc l) i = Some c ->
  c = (acc + sumZ (firstn (S i) l))%Z.
Proof.
  revert acc i. induction l as [|x t IH]; intros acc i H; simpl in H.
  - destruct i; discriminate.
  - destruct i as [|i]; simpl in H.
    + injection H as <-. simpl. rewrite sumZ_cons. unfold sumZ. simpl. lia.
    + apply IH in H. rewrite H. simpl firstn. rewrite sumZ_cons. lia.
Qed.

Lemma map_fst_combine {X Y : Type} (l : list X) (c : list Y) :
  length l = length c -> map fst (combine l c) = l.
Proof.
  revert c. induction l as [|x t IH]; intros [|y c] H; simpl in *;
    try discriminate; [reflexivity|].
  rewrite IH; [reflexivity| lia].
Qed.

Lemma nth_error_combine_inv {X Y : Type} (l : list X) (c : list Y) i x y :
  nth_error (combine l c) i = Some (x, y) ->
  nth_error l i = Some x /\ nth_error c i = Some y.
Proof.
  revert c i. induction l as [|a t IH]; intros [|b c] [|i] H; simpl in *;
    try discriminate.
  - injection H as -> ->. split; reflexivity.
  - apply IH, H.
Qed.

(** ** What a successful run returns *)

Definition sorted_df (groups : list income_group) (p : params) : list (base_row * tax_cols) :=
  sort_by df_key (map (fun b => (b, tax_columns p b)) (map build_row groups)).

Definition df_cums (df : list (base_row * tax_cols)) : list Z :=
  cumsum (map (fun r => group_pop (fst r)) df).

Lemma simulate_ok (groups : list income_group) (p : params) (r : result) :
  simulate groups p = Ok r ->
  exists rule,
    eligibility_rule (ubi_target p) = Some rule /\
    rows r = map (fun rc => ubi_columns rule (ubi_monthly p * 12) (fst rc) (snd rc))
                 (combine (sorted_df groups p) (df_cums (sorted_df groups p))) /\
    total_tax_revenue r
      = sumQ (map (fun b => total_tax_group (tax_columns p b)) (map build_row groups)) /\
    ubi_annual_per_person r = (ubi_monthly p * 12)%Z /\
    ubi_recipients r = sumZ (map eligible_pop (rows r)) /\
    total_ubi_cost r = (ubi_recipients r * ubi_annual_per_person r)%Z /\
    budget_surplus r = total_tax_revenue r - inject_Z (total_ubi_cost r) /\
    exists low high,
      iloc_first (rows r) = Ok low /\ iloc_last (rows r) = Ok high /\
      inequality_ratio r
        = if Qle_bool (disposable_income_per_person (ubi low)) 0 then None
          else Some (disposable_income_per_person (ubi high)
                     / disposable_income_per_person (ubi low)).
Proof.
  unfold simulate. intro H.
  destruct (eligibility_rule (ubi_target p)) as [rule|] eqn:E; simpl in H;
    [|discriminate].
  match type of H with
  | bind (iloc_first ?l) _ = _ =>
      destruct (iloc_first l) as [low|] eqn:Hlo; simpl in H; [|discriminate];
      destruct (iloc_last l) as [high|] eqn:Hhi; simpl in H; [|discriminate]
  end.
  injection H as <-. exists rule. simpl.
  repeat split; try reflexivity.
  - rewrite map_map. reflexivity.
  - exists low, high. repeat split; assumption.
Qed.

Lemma base_ubi_columns rule a rc c : base (ubi_columns rule a rc c) = fst rc.
Proof. destruct rc. reflexivity. Qed.

Lemma rows_base (groups : list income_group) (p : params) (r : result) :
  simulate groups p = Ok r ->
  map base (rows r) = map fst (sorted_df groups p) /\
  map fst (sorted_df groups p) = sort_by avg_income (map build_row groups).
Proof.
  intro H. apply simulate_ok in H as (rule & _ & Hrows & _).
  split.
  - rewrite Hrows, map_map.
    rewrite (map_ext (fun x => base (ubi_columns rule (ubi_monthly p * 12) (fst x) (snd x)))
                     (fun x => fst (fst x))) by (intros; apply base_ubi_columns).
    rewrite <- (map_map fst fst). f_equal. apply map_fst_combine. unfold df_cums, cumsum.
    rewrite cumsum_from_length, length_map. reflexivity.
  - unfold sorted_df. rewrite sort_by_pair, map_map. simpl. apply map_id.
Qed.

(** The targeting rule in the words of the specification: [Everyone] makes
    every bracket eligible, the two [Bottom] targets compare the bracket's
    cumulative share (through and including the bracket) with 0.50 and 0.20. *)
Definition target_rule_spec (target : string) (share : Q) : Prop :=
  target = "Everyone"%string
  \/ (target = "Bottom 50% income"%string /\ share <= 0.50)
  \/ (target = "Bottom 20% income"%string /\ share <= 0.20).

Lemma eligibility_rule_spec (target : string) (rule : Q -> bool) (s : Q) :
  eligibility_rule target = Some rule ->
  (rule s = true <-> target_rule_spec target s).
Proof.
  unfold eligibility_rule, target_rule_spec.
  destruct (String.eqb_spec target "Everyone") as [->|N1].
  { intros [= <-]. split; auto. }
  destruct (String.eqb_spec target "Bottom 50% income") as [->|N2].
  { intros [= <-]. rewrite Qle_bool_iff. split; [auto|].
    intros [H|[[_ H]|[H _]]]; [discriminate|exact H|discriminate]. }
  destruct (String.eqb_spec target "Bottom 20% income") as [->|N3].
  { intros [= <-]. rewrite Qle_bool_iff. split; [auto|].
    intros [H|[[H _]|[_ H]]]; [discriminate|discriminate|exact H]. }
  discriminate.
Qed.

Lemma rows_nth (groups : list income_group) (p : params) (r : result) rule i x :
  eligibility_rule (ubi_target p) = Some rule ->
  rows r = map (fun rc => ubi_columns rule (ubi_monthly p * 12) (fst rc) (snd rc))
               (combine (sorted_df groups p) (df_cums (sorted_df groups p))) ->
  nth_error (rows r) i = Some x ->
  exists bt c,
    nth_error (sorted_df groups p) i = Some bt /\
    c = sumZ (firstn (S i) (map (fun r => group_pop (fst r)) (sorted_df groups p))) /\
    x = ubi_columns rule (ubi_monthly p * 12) bt c.
Proof.
  intros _ Hrows Hx. rewrite Hrows, nth_error_map in Hx.
  destruct (nth_error (combine _ _) i) as [[bt c]|] eqn:Hc; [|discriminate].
  injection Hx as <-. apply nth_error_combine_inv in Hc as [Hbt Hcum].
  exists bt, c. split; [exact Hbt|]. split; [|reflexivity].
  unfold df_cums, cumsum in Hcum. apply nth_error_cumsum_from in Hcum. lia.
Qed.

(** [C1]: whatever the levers, the rows of the result are the brackets
    sorted ascending by [avg_income]; each row carries the running population
    count through and including itself, its [cum_pop_share] is that count
    over [TOTAL_POP], it is eligible exactly when the target rule holds for
    that share, and eligibility is per whole bracket: a row receives the full
    annual UBI or nothing, and the recipients are the whole populations of
    the eligible rows. *)
Theorem ubi_eligibility_by_cumulative_share (groups : list income_group) (p : params)
    (r : result) :
  simulate groups p = Ok r ->
  Sorted (fun a b => avg_income a <= avg_income b) (map base (rows r)) /\
  Permutation (map base (rows r)) (map build_row groups) /\
  ubi_recipients r = sumZ (map eligible_pop (rows r)) /\
  (forall i x, nth_error (rows r) i = Some x ->
     cum_pop (ubi x) = sumZ (firstn (S i) (map (fun y => group_pop (base y)) (rows r))) /\
     cum_pop_share (ubi x) = inject_Z (cum_pop (ubi x)) / inject_Z TOTAL_POP /\
     (ubi_eligible (ubi x) = true <-> target_rule_spec (ubi_target p) (cum_pop_share (ubi x))) /\
     ubi_per_person (ubi x)
       = if ubi_eligible (ubi x) then inject_Z (ubi_annual_per_person r) else 0).
Proof.
  intro H.
  destruct (rows_base _ _ _ H) as [Hb1 Hb2].
  pose proof (simulate_ok _ _ _ H) as (rule & Erule & Hrows & _ & Hann & Hrec & _).
  rewrite Hb1, Hb2.
  split; [apply sort_by_sorted|].
  split; [apply sort_by_perm|].
  split; [exact Hrec|].
  intros i x Hx.
  destruct (rows_nth groups p r rule i x Erule Hrows Hx) as (bt & c & _ & Hc & ->).
  destruct bt as [b t]. simpl.
  rewrite <- (map_map base group_pop), Hb1, map_map.
  split; [exact Hc|]. split; [reflexivity|].
  split; [apply (eligibility_rule_spec _ _ _ Erule)|].
  rewrite Hann. reflexivity.
Qed.

(** ** When the computation raises *)

Lemma simulate_total (groups : list income_group) (p : params) (rule : Q -> bool) :
  eligibility_rule (ubi_target p) = Some rule -> groups <> [] ->
  exists r, simulate groups p = Ok r.
Proof.
  intros E Hne. unfold simulate. cbv zeta. rewrite E. cbn [bind read_eligible_column].
  destruct (map _ (combine _ _)) as [|x t] eqn:Hl.
  - exfalso. apply (f_equal (@length _)) in Hl.
    rewrite length_map, length_combine in Hl. unfold cumsum in Hl.
    rewrite cumsum_from_length, length_map, Nat.min_id in Hl.
    rewrite (Permutation_length (sort_by_perm _ _)), !length_map in Hl.
    destruct groups; [contradiction|discriminate].
  - unfold iloc_last. simpl.
    destruct (rev t ++ [x]) as [|y u] eqn:Hr.
    + exfalso. destruct (rev t); discriminate.
    + eexists. reflexivity.
Qed.

Lemma simulate_unknown_target (groups : list income_group) (p : params) :
  eligibility_rule (ubi_target p) = None ->
  simulate groups p = Err (KeyError "ubi_eligible").
Proof. intro E. unfold simulate. cbv zeta. rewrite E. reflexivity. Qed.

Definition valid_target (t : string) : Prop :=
  t = "Everyone"%string \/ t = "Bottom 50% income"%string \/ t = "Bottom 20% income"%string.

Lemma eligibility_rule_valid (t : string) :
  valid_target t <-> eligibility_rule t <> None.
Proof.
  unfold valid_target, eligibility_rule.
  destruct (String.eqb_spec t "Everyone") as [->|N1]; [split; [discriminate|auto]|].
  destruct (String.eqb_spec t "Bottom 50% income") as [->|N2]; [split; [discriminate|auto]|].
  destruct (String.eqb_spec t "Bottom 20% income") as [->|N3]; [split; [discriminate|auto]|].
  split; [intros [H|[H|H]]; contradiction | intro H; contradiction H; reflexivity].
Qed.

(** A run on the reference data with the default levers. *)
Definition default_run : result :=
  Eval vm_compute in
    match simulate INCOME_GROUPS default_params with
    | Ok r => r
    | Err _ => mk_result [] 0 0 0 0 0 None
    end.

Lemma simulate_default : simulate INCOME_GROUPS default_params = Ok default_run.
Proof. vm_compute. reflexivity. Qed.

(** Witness for [ubi_eligibility_by_cumulative_share]: the default run. *)
Lemma ubi_eligibility_by_cumulative_share_witness :
  simulate INCOME_GROUPS default_params = Ok default_run /\
  Sorted (fun a b => avg_income a <= avg_income b) (map base (rows default_run)) /\
  ubi_recipients default_run = sumZ (map eligible_pop (rows default_run)).
Proof.
  assert (H : simulate INCOME_GROUPS default_params = Ok default_run)
    by (vm_compute; reflexivity).
  destruct (ubi_eligibility_by_cumulative_share INCOME_GROUPS default_params default_run H)
    as (Hs & _ & Hr & _).
  split; [exact H|]. split; [exact Hs|exact Hr].
Defined.

(** [C2] (counterexample): the program validates nothing.  A negative UBI
    amount and a negative tax rate are not rejected: the run succeeds and
    reports a negative UBI cost and a negative revenue. *)
Lemma malformed_input_not_rejected :
  (exists r, simulate INCOME_GROUPS (mk_params (10 # 100) (10 # 100) (15 # 100) (-800) "Everyone") = Ok r
             /\ (total_ubi_cost r < 0)%Z) /\
  (exists r, simulate INCOME_GROUPS (mk_params (-1 # 10) 0 0 800 "Everyone") = Ok r
             /\ total_tax_revenue r < 0).
Proof.
  split; eexists; split; [vm_compute; reflexivity| vm_compute; reflexivity
                         | vm_compute; reflexivity| vm_compute; reflexivity].
Qed.

(** [C2] (as the code behaves): there is no validation step.  On the
    reference data, any levers with one of the three targets produce a
    result, whatever the signs of the rates and of the UBI amount; any other
    target leaves the column [ubi_eligible] unassigned and the run stops with
    [KeyError 'ubi_eligible'] at line 119, before any result exists. *)
Theorem no_input_validation (p : params) :
  (valid_target (ubi_target p) -> exists r, simulate INCOME_GROUPS p = Ok r) /\
  (~ valid_target (ubi_target p) ->
     simulate INCOME_GROUPS p = Err (KeyError "ubi_eligible")).
Proof.
  split.
  - intro Hv. apply eligibility_rule_valid in Hv.
    destruct (eligibility_rule (ubi_target p)) as [rule|] eqn:E; [|contradiction].
    apply (simulate_total _ _ rule E). discriminate.
  - intro Hv. apply simulate_unknown_target.
    destruct (eligibility_rule (ubi_target p)) eqn:E; [|reflexivity].
    exfalso. apply Hv, eligibility_rule_valid. rewrite E. discriminate.
Qed.

(** ** First and last rows of a sorted table *)

Section Extremes.
Context {A : Type} (R : A -> A -> Prop).

Lemma strongly_sorted_app_last (l : list A) (z : A) :
  StronglySorted R (l ++ [z]) -> forall a, In a l -> R a z.
Proof.
  induction l as [|x t IH]; intros Hs a Ha; [destruct Ha|].
  simpl in Hs. apply StronglySorted_inv in Hs as [Ht Hx].
  destruct Ha as [<-|Ha].
  - rewrite Forall_forall in Hx. apply Hx, in_or_app. right. left. reflexivity.
  - apply IH; assumption.
Qed.
End Extremes.

Lemma avg_le_trans : Transitive (fun a b : base_row => avg_income a <= avg_income b).
Proof. intros x y z. apply Qle_trans. Qed.

Lemma rows_extremes (groups : list income_group) (p : params) (r : result) low high :
  simulate groups p = Ok r ->
  iloc_first (rows r) = Ok low -> iloc_last (rows r) = Ok high ->
  forall y, In y (rows r) ->
    avg_income (base low) <= avg_income (base y) <= avg_income (base high).
Proof.
  intros H Hlo Hhi y Hy.
  destruct (rows_base _ _ _ H) as [Hb1 Hb2].
  assert (Hs : StronglySorted (fun a b => avg_income a <= avg_income b) (map base (rows r))).
  { apply Sorted_StronglySorted; [exact avg_le_trans|].
    rewrite Hb1, Hb2. apply sort_by_sorted. }
  split.
  - unfold iloc_first in Hlo. destruct (rows r) as [|x t]; [discriminate|].
    injection Hlo as ->. simpl in Hs, Hy.
    apply StronglySorted_inv in Hs as [_ Hx]. rewrite Forall_forall in Hx.
    destruct Hy as [<-|Hy]; [apply Qle_refl|].
    apply Hx, in_map, Hy.
  - unfold iloc_last in Hhi. destruct (rev (rows r)) as [|x u] eqn:Hr; [discriminate|].
    injection Hhi as ->.
    assert (Hrows : rows r = rev u ++ [high]) by (rewrite <- (rev_involutive (rows r)), Hr; reflexivity).
    rewrite Hrows in Hs, Hy. rewrite map_app in Hs. simpl in Hs.
    apply in_app_or in Hy as [Hy|[<-|[]]]; [|apply Qle_refl].
    apply (strongly_sorted_app_last _ _ _ Hs), in_map, Hy.
Qed.

(** [C3]: on a non-empty table with one of the three targets the run
    does not raise; its first row has the lowest and its last row the
    highest [avg_income]; the ratio is the last row's disposable income over
    the first row's when the latter is strictly positive, and [np.nan]
    ([None]) otherwise. *)
Theorem inequality_ratio_defined_or_nan (groups : list income_group) (p : params) :
  groups <> [] -> valid_target (ubi_target p) ->
  exists r low high,
    simulate groups p = Ok r /\
    iloc_first (rows r) = Ok low /\ iloc_last (rows r) = Ok high /\
    (forall y, In y (rows r) ->
       avg_income (base low) <= avg_income (base y) <= avg_income (base high)) /\
    (0 < disposable_income_per_person (ubi low) ->
       inequality_ratio r = Some (disposable_income_per_person (ubi high)
                                  / disposable_income_per_person (ubi low))) /\
    (disposable_income_per_person (ubi low) <= 0 -> inequality_ratio r = None).
Proof.
  intros Hne Hv. apply eligibility_rule_valid in Hv.
  destruct (eligibility_rule (ubi_target p)) as [rule|] eqn:E; [|contradiction].
  destruct (simulate_total _ _ rule E Hne) as [r H].
  pose proof (simulate_ok _ _ _ H) as (_ & _ & _ & _ & _ & _ & _ & _ & low & high & Hlo & Hhi & Hq).
  exists r, low, high.
  split; [exact H|]. split; [exact Hlo|]. split; [exact Hhi|].
  split; [exact (rows_extremes _ _ _ _ _ H Hlo Hhi)|].
  split.
  - intro Hpos. rewrite Hq.
    destruct (Qle_bool _ 0) eqn:Hb; [|reflexivity].
    apply Qle_bool_iff in Hb. exfalso. exact (Qlt_not_le _ _ Hpos Hb).
  - intro Hneg. rewrite Hq. apply Qle_bool_iff in Hneg. rewrite Hneg. reflexivity.
Qed.

(** Witness for [inequality_ratio_defined_or_nan]: the default levers on the
    reference data. *)
Lemma inequality_ratio_defined_or_nan_witness :
  exists r q, simulate INCOME_GROUPS default_params = Ok r /\
    inequality_ratio r = Some q /\ q == 165200 / 24662.
Proof.
  destruct (inequality_ratio_defined_or_nan INCOME_GROUPS default_params
              ltac:(discriminate) ltac:(left; reflexivity))
    as (r & low & high & H & Hlo & Hhi & _ & Hpos & _).
  exists r, (disposable_income_per_person (ubi high) / disposable_income_per_person (ubi low)).
  split; [exact H|].
  rewrite simulate_default in H. injection H as <-.
  vm_compute in Hlo, Hhi. injection Hlo as <-. injection Hhi as <-.
  split; [apply Hpos; vm_compute; reflexivity|].
  vm_compute. reflexivity.
Defined.

(** ** Sums of rationals *)

Lemma fold_left_Qplus_acc (l : list Q) (a : Q) :
  fold_left Qplus l a == a + fold_left Qplus l 0.
Proof.
  revert a. induction l as [|x t IH]; intro a; simpl; [ring|].
  rewrite (IH (a + x)), (IH (0 + x)). ring.
Qed.

Lemma sumQ_cons (x : Q) (l : list Q) : sumQ (x :: l) == x + sumQ l.
Proof. unfold sumQ. simpl. rewrite fold_left_Qplus_acc. ring. Qed.

Lemma sumQ_perm (l l' : list Q) : Permutation l l' -> sumQ l == sumQ l'.
Proof.
  induction 1 as [| x l l' _ IH | x y l | l l' l'' _ IH1 _ IH2].
  - reflexivity.
  - rewrite !sumQ_cons, IH. reflexivity.
  - rewrite !sumQ_cons. ring.
  - rewrite IH1. exact IH2.
Qed.

Lemma taxes_ubi_columns rule a rc c : taxes (ubi_columns rule a rc c) = snd rc.
Proof. destruct rc. reflexivity. Qed.

Lemma rows_pairs (groups : list income_group) (p : params) (r : result) :
  simulate groups p = Ok r ->
  map (fun y => (base y, taxes y)) (rows r) = sorted_df groups p.
Proof.
  intro H. apply simulate_ok in H as (rule & _ & Hrows & _).
  rewrite Hrows, map_map.
  rewrite (map_ext (fun x => (base (ubi_columns rule (ubi_monthly p * 12) (fst x) (snd x)),
                              taxes (ubi_columns rule (ubi_monthly p * 12) (fst x) (snd x))))
                   fst)
    by (intros [[b t] c]; reflexivity).
  apply map_fst_combine. unfold df_cums, cumsum.
  rewrite cumsum_from_length, length_map. reflexivity.
Qed.

(** [C4]: the budget balance is the revenue minus the UBI cost; the revenue
    is the sum over the brackets of tax per person times population; the
    cost is recipients times 12 times the monthly amount. *)
Theorem budget_identity (groups : list income_group) (p : params) (r : result) :
  simulate groups p = Ok r ->
  budget_surplus r = total_tax_revenue r - inject_Z (total_ubi_cost r) /\
  total_tax_revenue r
    == sumQ (map (fun y => total_tax_per_person (taxes y) * inject_Z (group_pop (base y)))
                 (rows r)) /\
  total_ubi_cost r = (ubi_recipients r * 12 * ubi_monthly p)%Z.
Proof.
  intro H.
  pose proof (rows_pairs _ _ _ H) as Hp.
  apply simulate_ok in H as (rule & _ & _ & Hrev & Hann & _ & Hcost & Hbud & _).
  split; [exact Hbud|]. split.
  - rewrite Hrev.
    rewrite <- (map_map (fun y => (base y, taxes y))
                        (fun bt => total_tax_per_person (snd bt) * inject_Z (group_pop (fst bt)))).
    rewrite Hp. unfold sorted_df.
    rewrite (sumQ_perm _ _ (Permutation_map _ (sort_by_perm _ _))).
    rewrite !map_map. apply Qeq_refl.
  - rewrite Hcost, Hann. lia.
Qed.

(** Witness for [budget_identity]: the default run. *)
Lemma budget_identity_witness :
  budget_surplus default_run
    = total_tax_revenue default_run - inject_Z (total_ubi_cost default_run) /\
  total_ubi_cost default_run = (ubi_recipients default_run * 12 * 800)%Z.
Proof.
  destruct (budget_identity INCOME_GROUPS default_params default_run
              ltac:(vm_compute; reflexivity)) as (Hb & _ & Hc).
  split; [exact Hb|exact Hc].
Defined.

(** ** The reference data *)

Lemma reference_sorted :
  sort_by avg_income (map build_row INCOME_GROUPS) = map build_row INCOME_GROUPS.
Proof. vm_compute. reflexivity. Qed.

Lemma eligible_pop_pairs (l : list row) :
  map eligible_pop l
  = map (fun ne : Z * bool => if snd ne then fst ne else 0%Z)
        (map (fun y => (group_pop (base y), ubi_eligible (ubi y))) l).
Proof. rewrite map_map. reflexivity. Qed.

(** On the reference data the population counts, in table order, are
    30000, 40000, 20000, 10000, with running totals 30000, 70000, 90000,
    100000; eligibility is the target's rule applied to the running share. *)
Lemma reference_eligibility (p : params) (r : result) :
  simulate INCOME_GROUPS p = Ok r ->
  exists rule,
    eligibility_rule (ubi_target p) = Some rule /\
    map (fun y => (group_pop (base y), ubi_eligible (ubi y))) (rows r)
    = [(30000%Z, rule (cum_pop_share_of 30000));
       (40000%Z, rule (cum_pop_share_of 70000));
       (20000%Z, rule (cum_pop_share_of 90000));
       (10000%Z, rule (cum_pop_share_of 100000))].
Proof.
  intro H. apply simulate_ok in H as (rule & E & Hrows & _).
  exists rule. split; [exact E|].
  rewrite Hrows. unfold sorted_df.
  rewrite sort_by_pair, reference_sorted. reflexivity.
Qed.

(** [C5]: with the reference population and the target
    [Bottom 20% income] nobody is eligible (the first running share is
    already 0.30), so whatever the UBI amount and the rates there are no
    recipients and the UBI costs nothing. *)
Theorem bottom20_no_recipients (v l i : Q) (m : Z) :
  exists r,
    simulate INCOME_GROUPS (mk_params v l i m "Bottom 20% income") = Ok r /\
    Forall (fun y => ubi_eligible (ubi y) = false) (rows r) /\
    ubi_recipients r = 0%Z /\ total_ubi_cost r = 0%Z.
Proof.
  destruct (simulate_total INCOME_GROUPS (mk_params v l i m "Bottom 20% income")
              (fun s => Qle_bool s 0.20) eq_refl ltac:(discriminate)) as [r H].
  exists r. split; [exact H|].
  pose proof (simulate_ok _ _ _ H) as (_ & _ & _ & _ & _ & Hrec & Hcost & _).
  destruct (reference_eligibility _ _ H) as (rule & E & Hpairs).
  simpl in E. injection E as <-.
  assert (Hrec0 : ubi_recipients r = 0%Z).
  { rewrite Hrec, eligible_pop_pairs, Hpairs. reflexivity. }
  split; [|split; [exact Hrec0|rewrite Hcost, Hrec0; reflexivity]].
  apply (f_equal (map snd)) in Hpairs. rewrite map_map in Hpairs. simpl in Hpairs.
  apply (Forall_map (fun y => ubi_eligible (ubi y)) (fun e => e = false)).
  rewrite Hpairs. repeat constructor.
Qed.

(** [C8]: with the reference population and the target [Everyone] the
    recipients are the whole population, 100000 = [TOTAL_POP]. *)
Theorem everyone_recipients_total (v l i : Q) (m : Z) :
  exists r,
    simulate INCOME_GROUPS (mk_params v l i m "Everyone") = Ok r /\
    ubi_recipients r = 100000%Z /\ ubi_recipients r = TOTAL_POP.
Proof.
  destruct (simulate_total INCOME_GROUPS (mk_params v l i m "Everyone")
              (fun _ => true) eq_refl ltac:(discriminate)) as [r H].
  exists r. split; [exact H|].
  pose proof (simulate_ok _ _ _ H) as (_ & _ & _ & _ & _ & Hrec & _).
  destruct (reference_eligibility _ _ H) as (rule & E & Hpairs).
  simpl in E. injection E as <-.
  rewrite Hrec, eligible_pop_pairs, Hpairs. split; reflexivity.
Qed.

Lemma sumQ_nil : sumQ [] = 0.
Proof. reflexivity. Qed.

Lemma sumQ_all_zero (l : list Q) : Forall (fun x => x == 0) l -> sumQ l == 0.
Proof.
  induction 1 as [|x t Hx _ IH]; [reflexivity|].
  rewrite sumQ_cons, Hx, IH. reflexivity.
Qed.

Lemma in_sorted_df (groups : list income_group) (p : params) bt :
  In bt (sorted_df groups p) ->
  exists g, In g groups /\ bt = (build_row g, tax_columns p (build_row g)).
Proof.
  unfold sorted_df. intro H.
  apply (Permutation_in _ (sort_by_perm _ _)) in H.
  rewrite map_map, in_map_iff in H. destruct H as (g & <- & Hg).
  exists g. split; [exact Hg|reflexivity].
Qed.

Lemma in_rows (groups : list income_group) (p : params) (r : result) y :
  simulate groups p = Ok r -> In y (rows r) ->
  exists rule g c,
    eligibility_rule (ubi_target p) = Some rule /\ In g groups /\
    y = ubi_columns rule (ubi_monthly p * 12)
          (build_row g, tax_columns p (build_row g)) c.
Proof.
  intros H Hy. apply simulate_ok in H as (rule & E & Hrows & _).
  rewrite Hrows, in_map_iff in Hy. destruct Hy as ([bt c] & <- & Hin).
  apply in_combine_l, in_sorted_df in Hin as (g & Hg & ->).
  exists rule, g, c. repeat split; assumption.
Qed.

(** [C9]: with all three rates and the UBI amount at zero, the revenue and
    the UBI cost are zero and every bracket's disposable income is its
    average income. *)
Theorem zero_rates_boundary (groups : list income_group) (target : string) (r : result) :
  simulate groups (mk_params 0 0 0 0 target) = Ok r ->
  total_tax_revenue r == 0 /\ total_ubi_cost r = 0%Z /\
  Forall (fun y => disposable_income_per_person (ubi y) == avg_income (base y)) (rows r).
Proof.
  intro H.
  pose proof (simulate_ok _ _ _ H) as (rule & _ & _ & Hrev & Hann & _ & Hcost & _).
  split; [|split].
  - rewrite Hrev. apply sumQ_all_zero, Forall_forall.
    intros x Hx. apply in_map_iff in Hx as (b & <- & _).
    simpl. ring.
  - rewrite Hcost, Hann. simpl. lia.
  - apply Forall_forall. intros y Hy.
    destruct (in_rows _ _ _ _ H Hy) as (rule' & g & c & _ & _ & ->).
    simpl. destruct (rule' _); simpl; ring.
Qed.

(** Witness for [zero_rates_boundary]: the reference data, target
    [Everyone]. *)
Lemma zero_rates_boundary_witness :
  exists r, simulate INCOME_GROUPS (mk_params 0 0 0 0 "Everyone") = Ok r /\
    total_tax_revenue r == 0 /\ total_ubi_cost r = 0%Z.
Proof.
  destruct (simulate_total INCOME_GROUPS (mk_params 0 0 0 0 "Everyone")
              (fun _ => true) eq_refl ltac:(discriminate)) as [r H].
  exists r. split; [exact H|].
  destruct (zero_rates_boundary INCOME_GROUPS "Everyone" r H) as (H1 & H2 & _).
  split; assumption.
Defined.

(** Python's [int] agrees with [floor] on non-negative values. *)
Lemma py_int_floor (x : Q) : 0 <= x -> py_int x = Qfloor x.
Proof.
  destruct x as [n d]. unfold py_int, Qfloor, Qle. simpl. intro H.
  apply Z.quot_div_nonneg; lia.
Qed.

(** [C10]: each of the four reference brackets gets
    [int(TOTAL_POP * pop_share)], which is the floor of that product (the
    truncation of a non-negative value); the counts are 30000, 40000,
    20000 and 10000 and their sum does not exceed [TOTAL_POP]. *)
Theorem population_truncation :
  (forall x, 0 <= x -> py_int x = Qfloor x) /\
  Forall (fun g => group_pop (build_row g) = py_int (inject_Z TOTAL_POP * pop_share g) /\
                   group_pop (build_row g) = Qfloor (inject_Z TOTAL_POP * pop_share g))
         INCOME_GROUPS /\
  map (fun g => group_pop (build_row g)) INCOME_GROUPS = [30000; 40000; 20000; 10000]%Z /\
  (sumZ (map (fun g => group_pop (build_row g)) INCOME_GROUPS) <= TOTAL_POP)%Z.
Proof.
  split; [exact py_int_floor|].
  split; [repeat constructor; vm_compute; reflexivity|].
  split; vm_compute; [reflexivity|discriminate].
Qed.

(** ** Monotonicity *)

(** Well-formed brackets: non-negative population share, income and MPC. *)
Definition group_wf (g : income_group) : Prop :=
  0 <= pop_share g /\ 0 <= g_avg_income g /\ 0 <= g_mpc g.

Definition groups_wf (groups : list income_group) : Prop := Forall group_wf groups.

Definition groups_wfb (groups : list income_group) : bool :=
  forallb (fun g => Qle_bool 0 (pop_share g) && Qle_bool 0 (g_avg_income g)
                    && Qle_bool 0 (g_mpc g))%bool groups.

Lemma groups_wfb_sound (groups : list income_group) :
  groups_wfb groups = true -> groups_wf groups.
Proof.
  unfold groups_wfb, groups_wf. intro H. apply Forall_forall. intros g Hg.
  rewrite forallb_forall in H. specialize (H g Hg).
  apply andb_prop in H as [H H3]. apply andb_prop in H as [H1 H2].
  apply Qle_bool_iff in H1, H2, H3. repeat split; assumption.
Qed.

Lemma consumption_split_nonneg (nm : string) :
  0 <= fst (consumption_split nm) /\ 0 <= snd (consumption_split nm).
Proof.
  unfold consumption_split.
  destruct (String.eqb nm "Low"); [split; discriminate|].
  destruct (String.eqb nm "Lower-Middle"); [split; discriminate|].
  destruct (String.eqb nm "Upper-Middle"); split; discriminate.
Qed.

Lemma build_row_nonneg (g : income_group) :
  group_wf g ->
  (0 <= group_pop (build_row g))%Z /\ 0 <= avg_income (build_row g) /\
  0 <= basic_cons (build_row g) /\ 0 <= luxury_cons (build_row g).
Proof.
  intros (Hs & Ha & Hm). unfold build_row.
  pose proof (consumption_split_nonneg (name g)) as [Hb Hl].
  destruct (consumption_split (name g)) as [bs ls]. simpl in *.
  assert (Hc : 0 <= g_avg_income g * g_mpc g) by (apply Qmult_le_0_compat; assumption).
  repeat split; try assumption; try (apply Qmult_le_0_compat; assumption).
  rewrite py_int_floor by (apply Qmult_le_0_compat; [discriminate|assumption]).
  replace 0%Z with (Qfloor 0) by reflexivity. apply Qfloor_resp_le.
  apply Qmult_le_0_compat; [discriminate|assumption].
Qed.

Lemma sumQ_le_map {A : Type} (f g : A -> Q) (l : list A) :
  (forall x, In x l -> f x <= g x) -> sumQ (map f l) <= sumQ (map g l).
Proof.
  induction l as [|x t IH]; intro H; simpl; [apply Qle_refl|].
  rewrite !sumQ_cons. apply Qplus_le_compat.
  - apply H. left. reflexivity.
  - apply IH. intros y Hy. apply H. right. exact Hy.
Qed.

(** [C6]: on well-formed brackets, no tax rate decreasing never decreases
    the revenue; in particular raising any single one of [vat_rate],
    [luxury_tax_rate] or [income_tax_rate] with the others held fixed
    never decreases it. *)
Theorem revenue_monotone_in_rates (groups : list income_group) (p p' : params)
    (r r' : result) :
  groups_wf groups ->
  vat_rate p <= vat_rate p' ->
  luxury_tax_rate p <= luxury_tax_rate p' ->
  income_tax_rate p <= income_tax_rate p' ->
  simulate groups p = Ok r -> simulate groups p' = Ok r' ->
  total_tax_revenue r <= total_tax_revenue r'.
Proof.
  intros Hwf Hv Hl Hi H H'.
  apply simulate_ok in H as (_ & _ & _ & Hrev & _).
  apply simulate_ok in H' as (_ & _ & _ & Hrev' & _).
  rewrite Hrev, Hrev', !map_map. apply sumQ_le_map.
  intros g Hg. unfold groups_wf in Hwf. rewrite Forall_forall in Hwf.
  destruct (build_row_nonneg g (Hwf g Hg)) as (Hp & Ha & Hb & Hx).
  unfold tax_columns. simpl.
  apply Qmult_le_compat_r; [|unfold Qle; simpl; lia].
  apply Qplus_le_compat; [apply Qplus_le_compat|].
  - apply Qmult_le_compat_r; [exact Hv|]. apply (Qplus_le_compat 0 _ 0 _ Hb Hx).
  - apply Qmult_le_compat_r; assumption.
  - apply Qmult_le_compat_r; assumption.
Qed.

(** Witness for [revenue_monotone_in_rates]: raising VAT from 10% to 20%
    with the default levers on the reference data. *)
Lemma revenue_monotone_in_rates_witness :
  exists r r',
    simulate INCOME_GROUPS default_params = Ok r /\
    simulate INCOME_GROUPS (mk_params (20 # 100) (10 # 100) (15 # 100) 800 "Everyone") = Ok r' /\
    total_tax_revenue r <= total_tax_revenue r'.
Proof.
  exists default_run,
    (match simulate INCOME_GROUPS (mk_params (20 # 100) (10 # 100) (15 # 100) 800 "Everyone")
     with Ok r => r | Err _ => default_run end).
  assert (H' : simulate INCOME_GROUPS (mk_params (20 # 100) (10 # 100) (15 # 100) 800 "Everyone")
               = Ok (match simulate INCOME_GROUPS
                             (mk_params (20 # 100) (10 # 100) (15 # 100) 800 "Everyone")
                     with Ok r => r | Err _ => default_run end))
    by (vm_compute; reflexivity).
  split; [exact simulate_default|]. split; [exact H'|].
  refine (revenue_monotone_in_rates INCOME_GROUPS default_params _ _ _
            (groups_wfb_sound INCOME_GROUPS eq_refl) _ _ _ simulate_default H');
    vm_compute; discriminate.
Defined.

Definition with_monthly (p : params) (m : Z) : params :=
  mk_params (vat_rate p) (luxury_tax_rate p) (income_tax_rate p) m (ubi_target p).

Definition with_target (p : params) (t : string) : params :=
  mk_params (vat_rate p) (luxury_tax_rate p) (income_tax_rate p) (ubi_monthly p) t.

Definition eligibility_column (r : result) : list bool :=
  map (fun y => ubi_eligible (ubi y)) (rows r).

Lemma sumZ_le_map {A : Type} (f g : A -> Z) (l : list A) :
  (forall x, In x l -> (f x <= g x)%Z) -> (sumZ (map f l) <= sumZ (map g l))%Z.
Proof.
  induction l as [|x t IH]; intro H; simpl; [lia|].
  rewrite !sumZ_cons.
  assert (f x <= g x)%Z by (apply H; left; reflexivity).
  assert (sumZ (map f t) <= sumZ (map g t))%Z by (apply IH; intros; apply H; right; assumption).
  lia.
Qed.

Lemma rows_group_pop_nonneg (groups : list income_group) (p : params) (r : result) :
  groups_wf groups -> simulate groups p = Ok r ->
  forall y, In y (rows r) -> (0 <= group_pop (base y))%Z.
Proof.
  intros Hwf H y Hy.
  destruct (in_rows _ _ _ _ H Hy) as (rule & g & c & _ & Hg & ->).
  unfold groups_wf in Hwf. rewrite Forall_forall in Hwf.
  apply (build_row_nonneg g (Hwf g Hg)).
Qed.

(** Two runs whose rows come from the same sorted table with eligibility
    rules [rule1] and [rule2], where [rule1] implies [rule2]. *)
Lemma rows_rule_mono (L : list (base_row * tax_cols * Z)) rule1 rule2 a1 a2 :
  (forall s, rule1 s = true -> rule2 s = true) ->
  (forall rc, In rc L -> (0 <= group_pop (fst (fst rc)))%Z) ->
  let rows1 := map (fun rc => ubi_columns rule1 a1 (fst rc) (snd rc)) L in
  let rows2 := map (fun rc => ubi_columns rule2 a2 (fst rc) (snd rc)) L in
  map base rows1 = map base rows2 /\
  Forall2 (fun e1 e2 => e1 = true -> e2 = true)
          (map (fun y => ubi_eligible (ubi y)) rows1)
          (map (fun y => ubi_eligible (ubi y)) rows2) /\
  (sumZ (map eligible_pop rows1) <= sumZ (map eligible_pop rows2))%Z.
Proof.
  intros Hrule Hpos rows1 rows2. subst rows1 rows2.
  split; [|split].
  - rewrite !map_map. apply map_ext. intros [[b t] c]. reflexivity.
  - induction L as [|[[b t] c] L IH]; simpl; constructor.
    + apply Hrule.
    + apply IH. intros rc Hrc. apply Hpos. right. exact Hrc.
  - rewrite !map_map. apply sumZ_le_map. intros [[b t] c] Hin.
    specialize (Hpos _ Hin). simpl in Hpos. unfold eligible_pop. simpl.
    destruct (rule1 (cum_pop_share_of c)) eqn:E1.
    + rewrite (Hrule _ E1). lia.
    + destruct (rule2 _); lia.
Qed.

Lemma combine_pop_nonneg (groups : list income_group) (p : params) :
  groups_wf groups ->
  forall rc, In rc (combine (sorted_df groups p) (df_cums (sorted_df groups p))) ->
  (0 <= group_pop (fst (fst rc)))%Z.
Proof.
  intros Hwf [bt c] Hin. apply in_combine_l, in_sorted_df in Hin as (g & Hg & ->).
  unfold groups_wf in Hwf. rewrite Forall_forall in Hwf.
  apply (build_row_nonneg g (Hwf g Hg)).
Qed.

Lemma sumZ_nonneg (l : list Z) : Forall (fun x => 0 <= x)%Z l -> (0 <= sumZ l)%Z.
Proof.
  induction 1 as [|x t Hx _ IH]; [reflexivity|]. rewrite sumZ_cons. lia.
Qed.

(** [C7]: on well-formed brackets, raising [ubi_monthly] with everything
    else fixed never decreases the UBI cost; and widening the target from
    [Bottom 20% income] to [Bottom 50% income] to [Everyone] with everything
    else fixed keeps the same rows, makes every bracket eligible under the
    wider target that was eligible under the narrower one, and never
    decreases the number of recipients. *)
Theorem ubi_cost_and_target_monotone (groups : list income_group) (p : params) :
  groups_wf groups ->
  (forall m r r', (ubi_monthly p <= m)%Z ->
     simulate groups p = Ok r -> simulate groups (with_monthly p m) = Ok r' ->
     (total_ubi_cost r <= total_ubi_cost r')%Z) /\
  (forall r20 r50 rE,
     simulate groups (with_target p "Bottom 20% income") = Ok r20 ->
     simulate groups (with_target p "Bottom 50% income") = Ok r50 ->
     simulate groups (with_target p "Everyone") = Ok rE ->
     map base (rows r20) = map base (rows r50) /\
     map base (rows r50) = map base (rows rE) /\
     Forall2 (fun e1 e2 => e1 = true -> e2 = true)
             (eligibility_column r20) (eligibility_column r50) /\
     Forall2 (fun e1 e2 => e1 = true -> e2 = true)
             (eligibility_column r50) (eligibility_column rE) /\
     (ubi_recipients r20 <= ubi_recipients r50 <= ubi_recipients rE)%Z).
Proof.
  intro Hwf.
  pose proof (combine_pop_nonneg groups p Hwf) as Hpos.
  split.
  - intros m r r' Hm H H'.
    assert (Hrec0 : (0 <= ubi_recipients r)%Z).
    { pose proof (simulate_ok _ _ _ H) as (_ & _ & _ & _ & _ & Hrec & _).
      rewrite Hrec. apply sumZ_nonneg, Forall_map, Forall_forall.
      intros y Hy. unfold eligible_pop.
      pose proof (rows_group_pop_nonneg _ _ _ Hwf H y Hy).
      destruct (ubi_eligible _); lia. }
    apply simulate_ok in H as (rule & E & Hrows & _ & Hann & Hrec & Hcost & _).
    apply simulate_ok in H' as (rule' & E' & Hrows' & _ & Hann' & Hrec' & Hcost' & _).
    simpl in E'. rewrite E in E'. injection E' as <-.
    change (sorted_df groups (with_monthly p m)) with (sorted_df groups p) in Hrows'.
    simpl ubi_monthly in Hrows', Hann'.
    assert (Heq : ubi_recipients r = ubi_recipients r').
    { rewrite Hrec, Hrec', Hrows, Hrows'.
      pose proof (rows_rule_mono _ rule rule (ubi_monthly p * 12) (m * 12)
                    (fun s H => H) (Hpos)) as (_ & _ & Hle1).
      pose proof (rows_rule_mono _ rule rule (m * 12) (ubi_monthly p * 12)
                    (fun s H => H) (Hpos)) as (_ & _ & Hle2).
      lia. }
    rewrite Hcost, Hcost', Hann, Hann', <- Heq. nia.
  - intros r20 r50 rE H20 H50 HE.
    apply simulate_ok in H20 as (rule20 & E20 & Hrows20 & _ & _ & Hrec20 & _).
    apply simulate_ok in H50 as (rule50 & E50 & Hrows50 & _ & _ & Hrec50 & _).
    apply simulate_ok in HE as (ruleE & EE & HrowsE & _ & _ & HrecE & _).
    simpl in E20, E50, EE.
    injection E20 as <-. injection E50 as <-. injection EE as <-.
    change (sorted_df groups (with_target p _)) with (sorted_df groups p)
      in Hrows20, Hrows50, HrowsE.
    simpl ubi_monthly in Hrows20, Hrows50, HrowsE.
    assert (H25 : forall s, Qle_bool s 0.20 = true -> Qle_bool s 0.50 = true).
    { intros s Hs. apply Qle_bool_iff in Hs. apply Qle_bool_iff.
      apply (Qle_trans _ _ _ Hs). apply Qle_bool_iff. reflexivity. }
    destruct (rows_rule_mono _ _ _ (ubi_monthly p * 12) (ubi_monthly p * 12) H25 Hpos)
      as (Hb1 & Hf1 & Hs1).
    destruct (rows_rule_mono _ (fun s => Qle_bool s 0.50) (fun _ => true)
                (ubi_monthly p * 12) (ubi_monthly p * 12) (fun s _ => eq_refl) Hpos)
      as (Hb2 & Hf2 & Hs2).
    unfold eligibility_column.
    rewrite Hrec20, Hrec50, HrecE, Hrows20, Hrows50, HrowsE.
    repeat split; try assumption; lia.
Qed.

(** Witness for [ubi_cost_and_target_monotone]: the default levers on the
    reference data. *)
Lemma ubi_cost_and_target_monotone_witness :
  groups_wf INCOME_GROUPS /\
  (forall m r r', (800 <= m)%Z ->
     simulate INCOME_GROUPS default_params = Ok r ->
     simulate INCOME_GROUPS (with_monthly default_params m) = Ok r' ->
     (total_ubi_cost r <= total_ubi_cost r')%Z).
Proof.
  pose proof (groups_wfb_sound INCOME_GROUPS eq_refl) as Hwf.
  split; [exact Hwf|].
  exact (proj1 (ubi_cost_and_target_monotone INCOME_GROUPS default_params Hwf)).
Defined.

(** * Further properties of the code *)

(** ** Revenue as a linear form of the rates *)

Lemma sumQ_map_ext {A : Type} (f g : A -> Q) (l : list A) :
  (forall x, In x l -> f x == g x) -> sumQ (map f l) == sumQ (map g l).
Proof.
  intro H. apply Qle_antisym; apply sumQ_le_map; intros x Hx;
    rewrite (H x Hx); apply Qle_refl.
Qed.

Lemma sumQ_map_plus {A : Type} (f g : A -> Q) (l : list A) :
  sumQ (map (fun x => f x + g x) l) == sumQ (map f l) + sumQ (map g l).
Proof.
  induction l as [|x t IH]; simpl; [reflexivity|].
  rewrite !sumQ_cons, IH. ring.
Qed.

Lemma sumQ_map_scale {A : Type} (c : Q) (f : A -> Q) (l : list A) :
  sumQ (map (fun x => c * f x) l) == c * sumQ (map f l).
Proof.
  induction l as [|x t IH]; simpl; [rewrite sumQ_nil; ring|].
  rewrite !sumQ_cons, IH. ring.
Qed.

(** Population-weighted consumption, luxury consumption and income. *)
Definition consumption_base (groups : list income_group) : Q :=
  sumQ (map (fun b => (basic_cons b + luxury_cons b) * inject_Z (group_pop b))
            (map build_row groups)).
Definition luxury_base (groups : list income_group) : Q :=
  sumQ (map (fun b => luxury_cons b * inject_Z (group_pop b)) (map build_row groups)).
Definition income_base (groups : list income_group) : Q :=
  sumQ (map (fun b => avg_income b * inject_Z (group_pop b)) (map build_row groups)).

Lemma revenue_linear (groups : list income_group) (p : params) (r : result) :
  simulate groups p = Ok r ->
  total_tax_revenue r
    == vat_rate p * consumption_base groups + luxury_tax_rate p * luxury_base groups
       + income_tax_rate p * income_base groups.
Proof.
  intro H. apply simulate_ok in H as (_ & _ & _ & Hrev & _).
  rewrite Hrev. unfold consumption_base, luxury_base, income_base.
  rewrite <- !sumQ_map_scale, <- !sumQ_map_plus.
  apply sumQ_map_ext. intros b _. unfold tax_columns. simpl. ring.
Qed.

(** [X2]: the tax revenue is linear in the three rates, with the
    population-weighted consumption, luxury consumption and income as
    coefficients. *)
Theorem revenue_linear_in_rates (groups : list income_group) (p : params) (r : result) :
  simulate groups p = Ok r ->
  total_tax_revenue r
    == vat_rate p * consumption_base groups + luxury_tax_rate p * luxury_base groups
       + income_tax_rate p * income_base groups.
Proof. exact (revenue_linear groups p r). Qed.

Lemma revenue_linear_in_rates_witness :
  total_tax_revenue default_run
    == (10 # 100) * consumption_base INCOME_GROUPS + (10 # 100) * luxury_base INCOME_GROUPS
       + (15 # 100) * income_base INCOME_GROUPS.
Proof. exact (revenue_linear_in_rates INCOME_GROUPS default_params default_run simulate_default). Defined.

Lemma reference_bases :
  consumption_base INCOME_GROUPS == 4330000000 /\
  luxury_base INCOME_GROUPS == 439400000 /\
  income_base INCOME_GROUPS == 5800000000.
Proof. repeat split; vm_compute; reflexivity. Qed.

Lemma reference_rows (p : params) (r : result) :
  simulate INCOME_GROUPS p = Ok r ->
  exists rule,
    eligibility_rule (ubi_target p) = Some rule /\
    rows r = map (fun rc => ubi_columns rule (ubi_monthly p * 12) (fst rc) (snd rc))
               (combine (map (fun b => (b, tax_columns p b)) (map build_row INCOME_GROUPS))
                        [30000; 70000; 90000; 100000]%Z).
Proof.
  intro H. apply simulate_ok in H as (rule & E & Hrows & _).
  exists rule. split; [exact E|].
  rewrite Hrows. unfold sorted_df.
  rewrite sort_by_pair, reference_sorted. reflexivity.
Qed.

(** [X1]: every combination the widgets can produce runs through without
    an exception, the inequality metric is then always a number (the lowest
    bracket keeps a positive disposable income even at the top rates), and
    the revenue and the UBI cost are non-negative. *)
Theorem ui_inputs_always_succeed (p : params) :
  ui_input p ->
  exists r q,
    simulate INCOME_GROUPS p = Ok r /\ inequality_ratio r = Some q /\
    0 <= total_tax_revenue r /\ (0 <= total_ubi_cost r)%Z.
Proof.
  intros (Hv & Hl & Hi & Hm & Ht).
  assert (Hval : valid_target (ubi_target p)) by
    (unfold valid_target; simpl in Ht; destruct Ht as [H|[H|[H|[]]]]; auto).
  apply eligibility_rule_valid in Hval.
  destruct (eligibility_rule (ubi_target p)) as [rule|] eqn:E; [|contradiction].
  destruct (simulate_total INCOME_GROUPS p rule E ltac:(discriminate)) as [r H].
  pose proof (revenue_linear _ _ _ H) as Hrev.
  destruct reference_bases as (Hc & Hx & Hn).
  pose proof (simulate_ok _ _ _ H)
    as (_ & _ & _ & _ & _ & Hrec & Hcost & _ & low & high & Hlo & Hhi & Hq).
  destruct (reference_rows _ _ H) as (rule' & E' & Hrows).
  rewrite E in E'. injection E' as <-.
  rewrite Hrows in Hlo. simpl in Hlo. injection Hlo as <-.
  assert (Hpos : 0 < disposable_income_per_person
                   (ubi (ubi_columns rule (ubi_monthly p * 12)
                           (build_row (mk_group "Low" (30 # 100) 20000 (95 # 100)),
                            tax_columns p (build_row (mk_group "Low" (30 # 100) 20000 (95 # 100))))
                           30000))).
  { assert (Hu : 0 <= (if rule (cum_pop_share_of 30000)
                       then inject_Z (ubi_monthly p * 12) else 0)).
    { destruct (rule _); [|apply Qle_refl].
      unfold Qle; simpl; lia. }
    simpl.
    set (u := if rule (cum_pop_share_of 30000) then inject_Z (ubi_monthly p * 12) else 0) in *.
    assert (Eq : 20000 - income_tax_rate p * 20000
                 - vat_rate p * (20000 * (95 # 100) * (98 # 100) + 20000 * (95 # 100) * (2 # 100))
                 - luxury_tax_rate p * (20000 * (95 # 100) * (2 # 100)) + u
                 == 20000 - 20000 * income_tax_rate p - 19000 * vat_rate p
                    - 380 * luxury_tax_rate p + u) by ring.
    rewrite Eq. lra. }
  eexists r, _. split; [exact H|]. split.
  - rewrite Hq. destruct (Qle_bool _ 0) eqn:Hb; [|reflexivity].
    apply Qle_bool_iff in Hb. exfalso. exact (Qlt_not_le _ _ Hpos Hb).
  - split.
    + rewrite Hrev, Hc, Hx, Hn. lra.
    + rewrite Hcost, Hrec.
      assert (0 <= sumZ (map eligible_pop (rows r)))%Z.
      { apply sumZ_nonneg, Forall_map, Forall_forall. intros y Hy. unfold eligible_pop.
        pose proof (rows_group_pop_nonneg INCOME_GROUPS p r
                      (groups_wfb_sound INCOME_GROUPS eq_refl) H y Hy).
        destruct (ubi_eligible _); lia. }
      pose proof (simulate_ok _ _ _ H) as (_ & _ & _ & _ & Hann & _).
      rewrite Hann. nia.
Qed.

Lemma ui_inputs_always_succeed_witness :
  exists r q, simulate INCOME_GROUPS default_params = Ok r /\ inequality_ratio r = Some q /\
    0 <= total_tax_revenue r /\ (0 <= total_ubi_cost r)%Z.
Proof.
  apply ui_inputs_always_succeed.
  unfold ui_input; simpl. repeat split; try (vm_compute; discriminate); try lia.
  left. reflexivity.
Defined.

(** [X3]: on the reference data the whole fiscal outcome has a closed form:
    revenue = 4.33e9 VAT + 4.394e8 luxury + 5.8e9 income-tax rate; the
    recipients are 100000, 30000 (only the Low bracket) or 0 for the three
    targets; the budget is revenue minus recipients times 12 times the
    monthly amount. *)
Theorem reference_budget_closed_form (p : params) (r : result) :
  simulate INCOME_GROUPS p = Ok r ->
  total_tax_revenue r
    == 4330000000 * vat_rate p + 439400000 * luxury_tax_rate p
       + 5800000000 * income_tax_rate p /\
  ((ubi_target p = "Everyone"%string /\ ubi_recipients r = 100000%Z) \/
   (ubi_target p = "Bottom 50% income"%string /\ ubi_recipients r = 30000%Z) \/
   (ubi_target p = "Bottom 20% income"%string /\ ubi_recipients r = 0%Z)) /\
  budget_surplus r
    == total_tax_revenue r - inject_Z (ubi_recipients r * 12 * ubi_monthly p).
Proof.
  intro H.
  pose proof (revenue_linear _ _ _ H) as Hrev.
  destruct reference_bases as (Hc & Hx & Hn).
  pose proof (simulate_ok _ _ _ H) as (_ & _ & _ & _ & Hann & Hrec & Hcost & Hbud & _).
  destruct (reference_eligibility _ _ H) as (rule & E & Hpairs).
  split; [rewrite Hrev, Hc, Hx, Hn; ring|].
  split.
  - rewrite Hrec, eligible_pop_pairs, Hpairs.
    unfold eligibility_rule in E.
    destruct (String.eqb_spec (ubi_target p) "Everyone") as [T|_].
    { injection E as <-. left. split; [exact T|reflexivity]. }
    destruct (String.eqb_spec (ubi_target p) "Bottom 50% income") as [T|_].
    { injection E as <-. right; left. split; [exact T|reflexivity]. }
    destruct (String.eqb_spec (ubi_target p) "Bottom 20% income") as [T|_].
    { injection E as <-. right; right. split; [exact T|reflexivity]. }
    discriminate.
  - rewrite Hbud, Hcost, Hann.
    replace (ubi_recipients r * 12 * ubi_monthly p)%Z
      with (ubi_recipients r * (ubi_monthly p * 12))%Z by ring.
    reflexivity.
Qed.

Lemma reference_budget_closed_form_witness :
  budget_surplus default_run
    == total_tax_revenue default_run - inject_Z (ubi_recipients default_run * 12 * 800).
Proof.
  exact (proj2 (proj2 (reference_budget_closed_form default_params default_run
                         simulate_default))).
Defined.



(** [X8]: on the reference data with non-negative rates, the percentage
    [delta] under the budget metric is absent exactly when all three rates
    are zero; when present it is 100 minus the UBI cost as a percentage of
    the revenue. *)
Theorem budget_delta_reference (p : params) (r : result) :
  0 <= vat_rate p -> 0 <= luxury_tax_rate p -> 0 <= income_tax_rate p ->
  simulate INCOME_GROUPS p = Ok r ->
  (budget_delta r = None <->
     vat_rate p == 0 /\ luxury_tax_rate p == 0 /\ income_tax_rate p == 0) /\
  (forall d, budget_delta r = Some d ->
     d == 100 - inject_Z (total_ubi_cost r) / total_tax_revenue r * 100).
Proof.
  intros Hv Hl Hi H.
  pose proof (revenue_linear _ _ _ H) as Hrev.
  destruct reference_bases as (Hc & Hx & Hn).
  rewrite Hc, Hx, Hn in Hrev.
  pose proof (simulate_ok _ _ _ H) as (_ & _ & _ & _ & _ & _ & _ & Hbud & _).
  unfold budget_delta.
  destruct (Qle_bool (total_tax_revenue r) 0) eqn:Hb.
  - apply Qle_bool_iff in Hb. split; [|discriminate].
    split; [intros _|reflexivity]. rewrite Hrev in Hb.
    repeat split; lra.
  - assert (Hpos : 0 < total_tax_revenue r).
    { apply Qnot_le_lt. intro Hle. apply Qle_bool_iff in Hle. congruence. }
    split.
    + split; [discriminate|]. intros (E1 & E2 & E3).
      rewrite Hrev, E1, E2, E3 in Hpos. exfalso. lra.
    + intros d Hd. injection Hd as <-. rewrite Hbud.
      field. intro Z0. rewrite Z0 in Hpos. exact (Qlt_irrefl 0 Hpos).
Qed.

Lemma budget_delta_reference_witness :
  budget_delta default_run = None <->
    (10 # 100) == 0 /\ (10 # 100) == 0 /\ (15 # 100) == 0.
Proof.
  refine (proj1 (budget_delta_reference default_params default_run _ _ _ simulate_default));
    vm_compute; discriminate.
Defined.

(** ** Running totals and the order of eligibility *)

Lemma sumZ_firstn_nonneg (l : list Z) (n : nat) :
  Forall (fun x => 0 <= x)%Z l -> (0 <= sumZ (firstn n l))%Z.
Proof.
  revert n. induction l as [|x t IH]; intros [|n] H; simpl; try reflexivity.
  inversion H; subst. rewrite sumZ_cons. specialize (IH n H3). lia.
Qed.

Lemma sumZ_firstn_mono (l : list Z) (n m : nat) :
  (n <= m)%nat -> Forall (fun x => 0 <= x)%Z l ->
  (sumZ (firstn n l) <= sumZ (firstn m l))%Z.
Proof.
  revert n m. induction l as [|x t IH]; intros n m Hnm H.
  - rewrite !firstn_nil. lia.
  - destruct n as [|n]; [apply sumZ_firstn_nonneg; exact H|].
    destruct m as [|m]; [lia|]. simpl. rewrite !sumZ_cons.
    inversion H; subst. specialize (IH n m ltac:(lia) H3). lia.
Qed.

Lemma cum_pop_share_of_mono (c1 c2 : Z) :
  (c1 <= c2)%Z -> cum_pop_share_of c1 <= cum_pop_share_of c2.
Proof.
  intro H. unfold cum_pop_share_of, Qdiv.
  apply Qmult_le_compat_r; [rewrite <- Zle_Qle; exact H|].
  vm_compute. discriminate.
Qed.

Lemma eligibility_rule_antitone (t : string) (rule : Q -> bool) (s1 s2 : Q) :
  eligibility_rule t = Some rule -> s1 <= s2 -> rule s2 = true -> rule s1 = true.
Proof.
  intros E Hs H2. apply (eligibility_rule_spec t rule s1 E).
  apply (eligibility_rule_spec t rule s2 E) in H2.
  destruct H2 as [H|[[H Hle]|[H Hle]]]; [left; exact H| |].
  - right; left. split; [exact H|exact (Qle_trans _ _ _ Hs Hle)].
  - right; right. split; [exact H|exact (Qle_trans _ _ _ Hs Hle)].
Qed.

Lemma sorted_df_pops_nonneg (groups : list income_group) (p : params) :
  groups_wf groups ->
  Forall (fun x => 0 <= x)%Z (map (fun r => group_pop (fst r)) (sorted_df groups p)).
Proof.
  intro Hwf. apply Forall_map, Forall_forall. intros bt Hbt.
  apply in_sorted_df in Hbt as (g & Hg & ->).
  unfold groups_wf in Hwf. rewrite Forall_forall in Hwf.
  apply (build_row_nonneg g (Hwf g Hg)).
Qed.

Lemma ubi_eligible_ubi_columns rule a bt c :
  ubi_eligible (ubi (ubi_columns rule a bt c)) = rule (cum_pop_share_of c).
Proof. destruct bt. reflexivity. Qed.

(** [X5]: on well-formed brackets the eligible rows always form a prefix of
    the income-sorted table: if a bracket receives UBI, so does every
    bracket with a lower position (lower income) in the table. *)
Theorem eligible_rows_are_prefix (groups : list income_group) (p : params) (r : result) :
  groups_wf groups -> simulate groups p = Ok r ->
  forall i j x y, (i <= j)%nat ->
    nth_error (rows r) i = Some x -> nth_error (rows r) j = Some y ->
    ubi_eligible (ubi y) = true -> ubi_eligible (ubi x) = true.
Proof.
  intros Hwf H i j x y Hij Hx Hy Hel.
  apply simulate_ok in H as (rule & E & Hrows & _).
  destruct (rows_nth groups p r rule i x E Hrows Hx) as (bx & cx & _ & Hcx & ->).
  destruct (rows_nth groups p r rule j y E Hrows Hy) as (by' & cy & _ & Hcy & ->).
  rewrite ubi_eligible_ubi_columns in Hel |- *.
  apply (eligibility_rule_antitone _ _ _ (cum_pop_share_of cy) E); [|exact Hel].
  apply cum_pop_share_of_mono. rewrite Hcx, Hcy.
  apply sumZ_firstn_mono; [lia|apply sorted_df_pops_nonneg, Hwf].
Qed.

Lemma eligible_rows_are_prefix_witness :
  exists x y, nth_error (rows default_run) 0 = Some x /\
    nth_error (rows default_run) 3 = Some y /\
    (ubi_eligible (ubi y) = true -> ubi_eligible (ubi x) = true).
Proof.
  destruct (nth_error (rows default_run) 0) as [x|] eqn:Hx; [|vm_compute in Hx; discriminate].
  destruct (nth_error (rows default_run) 3) as [y|] eqn:Hy; [|vm_compute in Hy; discriminate].
  exists x, y. split; [reflexivity|]. split; [reflexivity|].
  exact (eligible_rows_are_prefix INCOME_GROUPS default_params default_run
           (groups_wfb_sound INCOME_GROUPS eq_refl) simulate_default 0 3 x y
           ltac:(lia) Hx Hy).
Defined.

Lemma sumZ_perm (l l' : list Z) : Permutation l l' -> sumZ l = sumZ l'.
Proof.
  induction 1 as [| x l l' _ IH | x y l | l l' l'' _ IH1 _ IH2].
  - reflexivity.
  - rewrite !sumZ_cons, IH. reflexivity.
  - rewrite !sumZ_cons. lia.
  - congruence.
Qed.

(** [X6]: the running population total of the last (highest-income) row is
    the sum of all the brackets' truncated counts, i.e. the population the
    model actually holds (which can fall short of [TOTAL_POP]). *)
Theorem last_row_cum_pop (groups : list income_group) (p : params) (r : result) (high : row) :
  simulate groups p = Ok r -> iloc_last (rows r) = Ok high ->
  cum_pop (ubi high) = sumZ (map (fun g => group_pop (build_row g)) groups).
Proof.
  intros H Hhi.
  destruct (rows_base _ _ _ H) as [Hb1 _].
  pose proof (simulate_ok _ _ _ H) as (rule & E & Hrows & _).
  unfold iloc_last in Hhi. destruct (rev (rows r)) as [|x u] eqn:Hr; [discriminate|].
  injection Hhi as ->.
  assert (Hrw : rows r = rev u ++ [high])
    by (rewrite <- (rev_involutive (rows r)), Hr; reflexivity).
  assert (Hn : nth_error (rows r) (length (rev u)) = Some high).
  { rewrite Hrw, nth_error_app2, Nat.sub_diag by lia. reflexivity. }
  destruct (rows_nth groups p r rule _ high E Hrows Hn) as ([b t] & c & _ & Hc & ->).
  simpl. rewrite Hc.
  rewrite firstn_all2.
  - unfold sorted_df.
    rewrite (sumZ_perm _ _ (Permutation_map _ (sort_by_perm _ _))), !map_map.
    reflexivity.
  - apply (f_equal (@length _)) in Hb1. rewrite !length_map in Hb1.
    rewrite length_map, <- Hb1, Hrw, length_app. simpl. lia.
Qed.

Lemma last_row_cum_pop_witness :
  exists high, iloc_last (rows default_run) = Ok high /\
    cum_pop (ubi high) = sumZ (map (fun g => group_pop (build_row g)) INCOME_GROUPS).
Proof.
  destruct (iloc_last (rows default_run)) as [high|] eqn:Hhi;
    [|vm_compute in Hhi; discriminate].
  exists high. split; [reflexivity|].
  exact (last_row_cum_pop INCOME_GROUPS default_params default_run high simulate_default Hhi).
Defined.


(** ** Disposable income and the rates *)

Lemma df_cums_pairs (f : base_row -> tax_cols) (S : list base_row) :
  df_cums (map (fun b => (b, f b)) S) = cumsum (map group_pop S).
Proof. unfold df_cums. rewrite map_map. reflexivity. Qed.

Lemma disposable_pairs_antitone (p p' : params) (rule : Q -> bool) (a : Z)
    (S : list base_row) (C : list Z) :
  vat_rate p <= vat_rate p' ->
  luxury_tax_rate p <= luxury_tax_rate p' ->
  income_tax_rate p <= income_tax_rate p' ->
  (forall b, In b S -> 0 <= avg_income b /\ 0 <= basic_cons b /\ 0 <= luxury_cons b) ->
  Forall2 (fun x y => disposable_income_per_person (ubi y)
                      <= disposable_income_per_person (ubi x))
    (map (fun rc => ubi_columns rule a (fst rc) (snd rc))
         (combine (map (fun b => (b, tax_columns p b)) S) C))
    (map (fun rc => ubi_columns rule a (fst rc) (snd rc))
         (combine (map (fun b => (b, tax_columns p' b)) S) C)).
Proof.
  intros Hv Hl Hi. revert C.
  induction S as [|b S IH]; intros [|c C] HS; simpl; constructor.
  - destruct (HS b (or_introl eq_refl)) as (Ha & Hb & Hx).
    unfold tax_columns; simpl.
    assert (Hbx : 0 <= basic_cons b + luxury_cons b) by lra.
    pose proof (Qmult_le_compat_r _ _ _ Hv Hbx).
    pose proof (Qmult_le_compat_r _ _ _ Hl Hx).
    pose proof (Qmult_le_compat_r _ _ _ Hi Ha).
    lra.
  - apply IH. intros b' Hb'. apply HS. right. exact Hb'.
Qed.

(** [X9]: on well-formed brackets, raising tax rates (any of them, the UBI
    amount and the target unchanged) never raises any bracket's disposable
    income: the two tables list the same brackets in the same order, and
    row by row the disposable income does not go up. *)
Theorem disposable_income_antitone_in_rates (groups : list income_group) (p p' : params)
    (r r' : result) :
  groups_wf groups ->
  vat_rate p <= vat_rate p' ->
  luxury_tax_rate p <= luxury_tax_rate p' ->
  income_tax_rate p <= income_tax_rate p' ->
  ubi_monthly p' = ubi_monthly p -> ubi_target p' = ubi_target p ->
  simulate groups p = Ok r -> simulate groups p' = Ok r' ->
  map base (rows r) = map base (rows r') /\
  Forall2 (fun x y => disposable_income_per_person (ubi y)
                      <= disposable_income_per_person (ubi x))
          (rows r) (rows r').
Proof.
  intros Hwf Hv Hl Hi Hm Ht H H'.
  destruct (rows_base _ _ _ H) as [Hb1 Hb2].
  destruct (rows_base _ _ _ H') as [Hb1' Hb2'].
  split; [rewrite Hb1, Hb2, Hb1', Hb2'; reflexivity|].
  apply simulate_ok in H as (rule & E & Hrows & _).
  apply simulate_ok in H' as (rule' & E' & Hrows' & _).
  rewrite Ht, E in E'. injection E' as <-.
  rewrite Hrows, Hrows', Hm. unfold sorted_df.
  rewrite !sort_by_pair, !df_cums_pairs.
  apply disposable_pairs_antitone; [exact Hv|exact Hl|exact Hi|].
  intros b Hb. apply (Permutation_in _ (sort_by_perm _ _)), in_map_iff in Hb.
  destruct Hb as (g & <- & Hg).
  unfold groups_wf in Hwf. rewrite Forall_forall in Hwf.
  destruct (build_row_nonneg g (Hwf g Hg)) as (_ & Ha & Hb & Hx).
  repeat split; assumption.
Qed.

Lemma disposable_income_antitone_in_rates_witness :
  exists r',
    simulate INCOME_GROUPS (mk_params (20 # 100) (10 # 100) (15 # 100) 800 "Everyone") = Ok r' /\
    Forall2 (fun x y => disposable_income_per_person (ubi y)
                        <= disposable_income_per_person (ubi x))
            (rows default_run) (rows r').
Proof.
  destruct (simulate INCOME_GROUPS (mk_params (20 # 100) (10 # 100) (15 # 100) 800 "Everyone"))
    as [r'|e] eqn:H'; [|vm_compute in H'; discriminate].
  exists r'. split; [reflexivity|].
  refine (proj2 (disposable_income_antitone_in_rates INCOME_GROUPS default_params
            (mk_params (20 # 100) (10 # 100) (15 # 100) 800 "Everyone") _ _
            (groups_wfb_sound INCOME_GROUPS eq_refl) _ _ _ eq_refl eq_refl
            simulate_default H')); vm_compute; discriminate.
Defined.
